(** * Unix to PowerShell command converter: the translation engine

    A shallow embedding of [FastAPI_UnixToPS_main.py]: the loader of the
    mapping table, the whitespace tokenizer, the per-command rewrite rules of
    [convert_unix_to_powershell] and the [/convert] endpoint
    [convert_command], followed by the properties of the specification.

    Conventions.
    - A Python [str] is a [string] whose characters are code points below
      256; every literal of the program is ASCII.
    - A Python [dict] from [str] to [str] is a [gmap string string].
    - A call that can raise returns [exception + A]; a function that can
      fall off its end returns an [option] ([None] is Python's [None]). *)

From stdpp Require Import gmap strings list.
From Stdlib Require Import Ascii.

(** ** Python built-ins used by the program *)

Module Py.

Inductive exc_class :=
| FileNotFoundError
| PermissionError
| JSONDecodeError
| IndexError
| ValueError
| TypeError.

Record exception := Exc { exc_cls : exc_class; exc_msg : string }.

(** [str(e)] *)
Definition str_exc (e : exception) : string := exc_msg e.

Definition result (A : Type) : Type := exception + A.

Definition raise {A} (c : exc_class) (msg : string) : result A :=
  inl (Exc c msg).

#[global] Instance result_ret : MRet result := λ A x, inr x.
#[global] Instance result_bind : MBind result := λ A B f r,
  match r with
  | inl e => inl e
  | inr x => f x
  end.

(** [str.isspace] on one character: the white space of [str.strip] and
    [str.split] among the code points below 256. *)
Definition isspace (c : ascii) : bool :=
  let n := N_of_ascii c in
  ((9 <=? n) && (n <=? 13) || (28 <=? n) && (n <=? 32)
   || (n =? 133) || (n =? 160))%N.

Fixpoint lstrip (s : string) : string :=
  match s with
  | EmptyString => EmptyString
  | String c s' => if isspace c then lstrip s' else s
  end.

Fixpoint rstrip (s : string) : string :=
  match s with
  | EmptyString => EmptyString
  | String c s' =>
      match rstrip s' with
      | EmptyString => if isspace c then EmptyString else String c EmptyString
      | r => String c r
      end
  end.

(** [s.strip()] *)
Definition strip (s : string) : string := rstrip (lstrip s).

(** [s.split()]: the maximal runs of characters that are not white space,
    in order; never an empty token. *)
Fixpoint split (s : string) : list string :=
  match s with
  | EmptyString => []
  | String c s' =>
      if isspace c then split s'
      else
        match s' with
        | EmptyString => [String c EmptyString]
        | String c' _ =>
            if isspace c' then String c EmptyString :: split s'
            else
              match split s' with
              | [] => [String c EmptyString]
              | w :: ws => String c w :: ws
              end
        end
  end.

(** [l[i]] *)
Definition getitem (l : list string) (i : nat) : result string :=
  match l !! i with
  | Some x => mret x
  | None => raise IndexError "list index out of range"
  end.

Fixpoint index_from (x : string) (l : list string) (i : nat) : option nat :=
  match l with
  | [] => None
  | y :: l' => if bool_decide (y = x) then Some i else index_from x l' (S i)
  end.

(** [l.index(x)]: the position of the first element equal to [x]. *)
Definition index (l : list string) (x : string) : result nat :=
  match index_from x l 0 with
  | Some i => mret i
  | None => raise ValueError ("'" +:+ x +:+ "' is not in list")
  end.

(** [s.startswith(p)] *)
Fixpoint startswith (s p : string) {struct p} : bool :=
  match p with
  | EmptyString => true
  | String a p' =>
      match s with
      | EmptyString => false
      | String b s' => Ascii.eqb a b && startswith s' p'
      end
  end.

(** [s[1:]] *)
Definition slice_from_1 (s : string) : string :=
  match s with
  | EmptyString => EmptyString
  | String _ s' => s'
  end.

(** [sep.join(l)] *)
Definition join (sep : string) (l : list string) : string :=
  String.concat sep l.

(** [x in l] *)
Definition contains (l : list string) (x : string) : bool :=
  bool_decide (x ∈ l).

(** The values [json.load] can return. *)
#[warnings="-register-all"] Inductive json :=
| JNull
| JBool (b : bool)
| JNumber (n : Z)
| JString (s : string)
| JArray (items : list json)
| JObject (members : list (string * json)).

End Py.

Import Py.

(** ** The mapping table *)

(** The [dict] literal of [load_command_mappings], in source order. *)
Definition fallback_mappings : list (string * string) :=
  [ ("ls", "Get-ChildItem");
    ("pwd", "Get-Location");
    ("cd", "Set-Location");
    ("mkdir", "New-Item -ItemType Directory");
    ("rmdir", "Remove-Item -Recurse");
    ("rm", "Remove-Item");
    ("cp", "Copy-Item");
    ("mv", "Move-Item");
    ("cat", "Get-Content");
    ("grep", "Select-String");
    ("find", "Get-ChildItem -Recurse");
    ("ps", "Get-Process");
    ("kill", "Stop-Process");
    ("chmod", "Set-ItemProperty");
    ("which", "Get-Command");
    ("echo", "Write-Output");
    ("env", "Get-ChildItem Env:");
    ("history", "Get-History");
    ("clear", "Clear-Host");
    ("head", "Get-Content | Select-Object -First");
    ("tail", "Get-Content | Select-Object -Last");
    ("wc", "Measure-Object");
    ("sort", "Sort-Object");
    ("uniq", "Get-Unique");
    ("df", "Get-WmiObject -Class Win32_LogicalDisk");
    ("du", "Get-ChildItem | Measure-Object -Property Length -Sum");
    ("mount", "Get-WmiObject -Class Win32_Volume");
    ("wget", "Invoke-WebRequest");
    ("curl", "Invoke-RestMethod");
    ("tar", "Expand-Archive / Compress-Archive");
    ("ssh", "Enter-PSSession");
    ("scp", "Copy-Item -ToSession / Copy-Item -FromSession") ].

(** The fallback as the Python value the loader returns. *)
Definition fallback_dict : json :=
  JObject (prod_map id JString <$> fallback_mappings).

(** What the two library calls of the loader's [try] block,
    [open("command_mappings.json", "r")] and [json.load(f)], do with the
    external mapping source. *)
Inductive external_source :=
| SourceMissing                    (* open raises FileNotFoundError *)
| SourceUnreadable                 (* open raises PermissionError *)
| SourceUnparsable (msg : string)  (* json.load raises JSONDecodeError *)
| SourceParsed (doc : json).       (* json.load returns doc *)

Definition open_and_json_load (src : external_source) : result json :=
  match src with
  | SourceMissing =>
      raise FileNotFoundError
        "[Errno 2] No such file or directory: 'command_mappings.json'"
  | SourceUnreadable =>
      raise PermissionError
        "[Errno 13] Permission denied: 'command_mappings.json'"
  | SourceUnparsable msg => raise JSONDecodeError msg
  | SourceParsed doc => mret doc
  end.

(** [try: ... except FileNotFoundError: return {...}]: only the missing file
    is caught. *)
Definition load_command_mappings (src : external_source) : result json :=
  match open_and_json_load src with
  | inl (Exc FileNotFoundError _) => mret fallback_dict
  | r => r
  end.

(** A Python value read as a mapping table: a flat object whose values are
    all strings; a repeated key keeps its last value, as in a [dict]. *)
Fixpoint members_to_table (kvs : list (string * json))
  : option (gmap string string) :=
  match kvs with
  | [] => Some ∅
  | (k, JString v) :: rest =>
      m ← members_to_table rest;
      Some (if m !! k is Some _ then m else <[k := v]> m)
  | _ => None
  end.

Definition as_table (doc : json) : option (gmap string string) :=
  match doc with
  | JObject kvs => members_to_table kvs
  | _ => None
  end.

(** The table of the process when no external source exists. *)
Definition default_mappings : gmap string string :=
  list_to_map fallback_mappings.

(** ** The translation engine *)

(** [parts[0] if parts else ""] *)
Definition first_or_empty (parts : list string) : string :=
  match parts with
  | p0 :: _ => p0
  | [] => ""
  end.

(** [return a, b] and the implicit [return None] at the end of a function. *)
Definition return_pair (a b : string) : result (option (string * string)) :=
  mret (Some (a, b)).
Definition return_None : result (option (string * string)) := mret None.

(** [convert_unix_to_powershell]; the global [command_mappings] it reads is
    its first argument. *)
Definition convert_unix_to_powershell
    (command_mappings : gmap string string) (unix_cmd : string)
  : result (option (string * string)) :=
  let unix_cmd := strip unix_cmd in
  let parts := split unix_cmd in
  let base_command := first_or_empty parts in
  let args := if 1 <? length parts then drop 1 parts else [] in
  match command_mappings !! base_command with
  | Some ps_base =>
      if bool_decide (base_command = "ls") then
        if contains args "-la" || contains args "-l" then
          return_pair "Get-ChildItem | Format-List"
                      "Lists files with detailed information"
        else if contains args "-a" then
          return_pair "Get-ChildItem -Force"
                      "Lists all files including hidden ones"
        else
          return_pair ps_base "Lists files and directories"
      else if bool_decide (base_command = "grep") then
        if 1 <=? length args then
          pattern ← getitem args 0;
          if 2 <=? length args then
            file ← getitem args 1;
            return_pair
              ("Select-String -Pattern '" +:+ pattern +:+ "' -Path '"
                 +:+ file +:+ "'")
              ("Searches for pattern '" +:+ pattern +:+ "' in file '"
                 +:+ file +:+ "'")
          else
            return_pair
              ("Select-String -Pattern '" +:+ pattern +:+ "'")
              ("Searches for pattern '" +:+ pattern +:+ "' in input")
        else
          return_pair ps_base "Searches for patterns in text"
      else if bool_decide (base_command = "find") then
        if 1 <=? length args then
          if contains args "-name" then
            name_idx ← index args "-name";
            if name_idx + 1 <? length args then
              pattern ← getitem args (name_idx + 1);
              return_pair
                ("Get-ChildItem -Recurse -Name '*" +:+ pattern +:+ "*'")
                ("Finds files matching pattern '" +:+ pattern +:+ "'")
            else
              return_None
          else
            path ← getitem args 0;
            return_pair
              ("Get-ChildItem -Path '" +:+ path +:+ "' -Recurse")
              ("Lists all files in directory '" +:+ path
                 +:+ "' recursively")
        else
          return_pair ps_base "Finds files and directories"
      else if bool_decide (base_command = "head") then
        dashed ← (if 1 <=? length args
                  then a0 ← getitem args 0; mret (startswith a0 "-")
                  else mret false);
        if dashed : bool then
          a0 ← getitem args 0;
          let lines := slice_from_1 a0 in
          if 2 <=? length args then
            file ← getitem args 1;
            return_pair
              ("Get-Content '" +:+ file +:+ "' | Select-Object -First "
                 +:+ lines)
              ("Shows first " +:+ lines +:+ " lines of file '" +:+ file
                 +:+ "'")
          else
            return_pair ("Select-Object -First " +:+ lines)
                        ("Shows first " +:+ lines +:+ " lines")
        else
          return_pair "Get-Content | Select-Object -First 10"
                      "Shows first 10 lines (default)"
      else if bool_decide (base_command = "tail") then
        dashed ← (if 1 <=? length args
                  then a0 ← getitem args 0; mret (startswith a0 "-")
                  else mret false);
        if dashed : bool then
          a0 ← getitem args 0;
          let lines := slice_from_1 a0 in
          if 2 <=? length args then
            file ← getitem args 1;
            return_pair
              ("Get-Content '" +:+ file +:+ "' | Select-Object -Last "
                 +:+ lines)
              ("Shows last " +:+ lines +:+ " lines of file '" +:+ file
                 +:+ "'")
          else
            return_pair ("Select-Object -Last " +:+ lines)
                        ("Shows last " +:+ lines +:+ " lines")
        else
          return_pair "Get-Content | Select-Object -Last 10"
                      "Shows last 10 lines (default)"
      else if bool_decide (base_command = "kill") then
        if 1 <=? length args then
          pid ← getitem args 0;
          return_pair ("Stop-Process -Id " +:+ pid)
                      ("Terminates process with ID " +:+ pid)
        else
          return_pair ps_base "Terminates processes"
      else if contains ["cd"; "mkdir"; "rmdir"; "rm"; "cp"; "mv"; "cat"]
                       base_command then
        if 1 <=? length args then
          let target := join " " args in
          return_pair
            (ps_base +:+ " '" +:+ target +:+ "'")
            ("Performs " +:+ base_command +:+ " operation on '" +:+ target
               +:+ "'")
        else
          return_pair ps_base ("PowerShell equivalent of " +:+ base_command)
      else
        if bool_decide (args ≠ []) then
          return_pair
            (ps_base +:+ " " +:+ join " " args)
            ("PowerShell equivalent of " +:+ base_command
               +:+ " with arguments")
        else
          return_pair ps_base ("PowerShell equivalent of " +:+ base_command)
  | None =>
      return_pair
        ("# No direct mapping found for '" +:+ base_command +:+ "'")
        ("Command '" +:+ base_command
           +:+ "' doesn't have a direct PowerShell equivalent in our database")
  end.

(** ** The conversion endpoint *)

Record UnixCommand := {
  command : string;
  include_explanation : option bool
}.

Record PowerShellResponse := {
  unix_command : string;
  powershell_command : string;
  explanation : option string;
  status : string
}.

Record HTTPException := { status_code : nat; detail : string }.

(** [ps_command, explanation = v]: unpacking [None] raises [TypeError]. *)
Definition unpack_pair (v : option (string * string))
  : result (string * string) :=
  match v with
  | Some p => mret p
  | None => raise TypeError "cannot unpack non-iterable NoneType object"
  end.

(** The truth value of an [Optional[bool]]. *)
Definition truthy (b : option bool) : bool := default false b.

(** [convert_command]: [inl] is the raised [HTTPException], [inr] the
    response. *)
Definition convert_command
    (command_mappings : gmap string string) (request : UnixCommand)
  : HTTPException + PowerShellResponse :=
  if bool_decide (strip (command request) = "") then
    inl {| status_code := 400; detail := "Command cannot be empty" |}
  else
    match
      (convert_unix_to_powershell command_mappings (command request)
         ≫= unpack_pair)
    with
    | inr (ps_command, explanation) =>
        let response :=
          {| unix_command := command request;
             powershell_command := ps_command;
             explanation := None;
             status := "success" |} in
        if truthy (include_explanation request) then
          inr {| unix_command := unix_command response;
                 powershell_command := powershell_command response;
                 explanation := Some explanation;
                 status := status response |}
        else
          inr response
    | inl e =>
        inl {| status_code := 500;
               detail := "Error converting command: " +:+ str_exc e |}
    end.

(** ** The listing and lookup endpoints *)

Record CommandMappingsResponse := {
  mappings : gmap string string;
  total_commands : nat
}.

(** [get_command_mappings]: the table and [len(command_mappings)]. *)
Definition get_command_mappings (command_mappings : gmap string string)
  : CommandMappingsResponse :=
  {| mappings := command_mappings;
     total_commands := size command_mappings |}.

(** The [dict] with the keys [unix_command], [powershell_command] and
    [status] that [get_specific_mapping] returns. *)
Record SpecificMapping := {
  found_unix_command : string;
  found_powershell_command : string;
  found_status : string
}.

(** [get_specific_mapping]: [inl] is the raised [HTTPException]. *)
Definition get_specific_mapping
    (command_mappings : gmap string string) (unix_command : string)
  : HTTPException + SpecificMapping :=
  match command_mappings !! unix_command with
  | Some ps_base =>
      inr {| found_unix_command := unix_command;
             found_powershell_command := ps_base;
             found_status := "found" |}
  | None =>
      inl {| status_code := 404;
             detail := "No mapping found for command: " +:+ unix_command |}
  end.

(** ** Vocabulary of the statements *)

(** An empty or white-space-only string. *)
Definition blank (s : string) : Prop :=
  Forall (λ c, isspace c = true) (String.list_ascii_of_string s).

(** The placeholder prefix of the unmapped rule. *)
Definition placeholder_prefix : string := "# No direct mapping found for".

(** A token: not empty and free of white space. *)
Definition token (t : string) : Prop :=
  t ≠ "" ∧ Forall (λ c, isspace c = false) (String.list_ascii_of_string t).

(** The base commands that have a rule of their own. *)
Definition special_commands : list string :=
  ["ls"; "grep"; "find"; "head"; "tail"; "kill";
   "cd"; "mkdir"; "rmdir"; "rm"; "cp"; "mv"; "cat"].

(** ** Tokenizer facts *)

Section Tokenizer.

Lemma blank_nil : blank "".
Proof. constructor. Qed.

Lemma blank_cons c s : blank (String c s) ↔ isspace c = true ∧ blank s.
Proof.
  unfold blank; simpl. split.
  - by inversion 1.
  - intros [??]. by constructor.
Qed.

Lemma lstrip_blank s : blank s → lstrip s = "".
Proof.
  induction s as [|c s IH]; [done|].
  intros [Hc Hs]%blank_cons. simpl. by rewrite Hc, IH.
Qed.

Lemma lstrip_head s c t : lstrip s = String c t → isspace c = false.
Proof.
  induction s as [|a s IH]; simpl; [done|].
  destruct (isspace a) eqn:Ha; [done|]. congruence.
Qed.

Lemma lstrip_empty s : lstrip s = "" → blank s.
Proof.
  induction s as [|a s IH]; simpl; [intros; apply blank_nil|].
  destruct (isspace a) eqn:Ha; [|done].
  intros Hs. apply blank_cons. auto.
Qed.

Lemma rstrip_empty s : rstrip s = "" → blank s.
Proof.
  induction s as [|a s IH]; simpl; [intros; apply blank_nil|].
  destruct (rstrip s) eqn:Hr; [|done].
  destruct (isspace a) eqn:Ha; [|done].
  intros _. apply blank_cons. auto.
Qed.

(** [s.strip()] is empty exactly for the empty and the all-white-space
    strings. *)
Lemma strip_empty_iff s : strip s = "" ↔ blank s.
Proof.
  unfold strip. split.
  - intros Hr. apply rstrip_empty in Hr.
    destruct (lstrip s) as [|c t] eqn:Hl; [by apply lstrip_empty|].
    apply lstrip_head in Hl. apply blank_cons in Hr as [Hc _]. congruence.
  - intros Hs. by rewrite (lstrip_blank s Hs).
Qed.

(** [parts[1:] if len(parts) > 1 else []] is the tail of a non-empty
    [parts]. *)
Lemma args_of_cons (p0 : string) (rest : list string) :
  (if 1 <? length (p0 :: rest) then drop 1 (p0 :: rest) else []) = rest.
Proof. by destruct rest. Qed.

Lemma contains_true (l : list string) x : contains l x = true ↔ x ∈ l.
Proof. unfold contains. apply bool_decide_eq_true. Qed.

Lemma contains_false (l : list string) x : contains l x = false ↔ x ∉ l.
Proof. unfold contains. apply bool_decide_eq_false. Qed.

Lemma index_from_app x (pre post : list string) i :
  x ∉ pre → index_from x (pre ++ x :: post) i = Some (i + length pre).
Proof.
  revert i. induction pre as [|y pre IH]; intros i Hx; simpl.
  - rewrite bool_decide_eq_true_2 by done. f_equal. lia.
  - apply not_elem_of_cons in Hx as [Hxy Hpre].
    rewrite bool_decide_eq_false_2 by done.
    rewrite IH by done. f_equal. lia.
Qed.

Lemma index_from_Some x (l : list string) i j :
  index_from x l i = Some j → i ≤ j ∧ l !! (j - i) = Some x.
Proof.
  revert i. induction l as [|y l IH]; intros i; simpl; [done|].
  case_bool_decide as Hy.
  - intros [= <-]. split; [lia|]. by rewrite Nat.sub_diag, Hy.
  - intros [Hle Hl]%IH. split; [lia|].
    by replace (j - i) with (S (j - S i)) by lia.
Qed.

Lemma index_from_None x (l : list string) i :
  index_from x l i = None → x ∉ l.
Proof.
  revert i. induction l as [|y l IH]; intros i; simpl.
  - intros _. apply not_elem_of_nil.
  - case_bool_decide as Hy; [done|].
    intros Hl%IH. apply not_elem_of_cons. split; [congruence|done].
Qed.

End Tokenizer.

(** Unfolds the engine on a line whose tokens are known. *)
Ltac tokenized H :=
  unfold convert_unix_to_powershell; cbv zeta;
  rewrite H, ?args_of_cons; cbn [first_or_empty].

(** Turns the boolean membership tests of the context into memberships. *)
Ltac contains_hyps :=
  repeat match goal with
         | H : contains _ _ = true |- _ => apply contains_true in H
         | H : contains _ _ = false |- _ => apply contains_false in H
         end.

(** ** The loader *)

Section Loader.

Lemma fallback_is_default_table :
  as_table fallback_dict = Some default_mappings.
Proof. vm_compute. reflexivity. Qed.

Lemma fallback_keys_unique : NoDup fallback_mappings.*1.
Proof. apply (bool_decide_unpack _). vm_compute. exact I. Qed.

(** C2, as the specification states it, fails: a source that is present
    but unparsable makes the loader raise the parse error; no table is
    returned, the built-in one included. *)
Lemma load_unparsable_raises :
  load_command_mappings
    (SourceUnparsable "Expecting value: line 1 column 1 (char 0)")
  = inl (Exc JSONDecodeError "Expecting value: line 1 column 1 (char 0)")
  ∧ load_command_mappings
      (SourceUnparsable "Expecting value: line 1 column 1 (char 0)")
    ≠ inr fallback_dict
  ∧ ¬ ∃ doc,
      load_command_mappings
        (SourceUnparsable "Expecting value: line 1 column 1 (char 0)")
      = inr doc.
Proof.
  split; [reflexivity|]. split; [discriminate|].
  intros [doc Hdoc]. discriminate Hdoc.
Qed.

(** C2, amended: the loader falls back to the built-in table exactly when
    the external source is missing, and then returns that string-to-string
    table without any error; for every other source it yields what opening
    and parsing yield, the parsed document or the raised error, so an
    unparsable source raises its parse error. *)
Theorem load_falls_back_only_when_missing :
  load_command_mappings SourceMissing = inr fallback_dict
  ∧ as_table fallback_dict = Some default_mappings
  ∧ (∀ src, src ≠ SourceMissing →
       load_command_mappings src = open_and_json_load src)
  ∧ (∀ msg, load_command_mappings (SourceUnparsable msg)
            = inl (Exc JSONDecodeError msg)).
Proof.
  split; [reflexivity|]. split; [apply fallback_is_default_table|].
  split; [|reflexivity].
  intros [| |msg|doc] Hsrc; [done|reflexivity..].
Qed.

Lemma load_falls_back_only_when_missing_witness :
  SourceUnreadable ≠ SourceMissing
  ∧ load_command_mappings SourceUnreadable
    = open_and_json_load SourceUnreadable.
Proof.
  split; [discriminate|].
  apply (proj1 (proj2 (proj2 load_falls_back_only_when_missing))).
  discriminate.
Defined.

End Loader.

(** ** The endpoint: bad requests and soft misses *)

Section Endpoint.

Implicit Types (m : gmap string string) (line base : string).

Lemma split_nonempty_strip s p0 rest :
  split (strip s) = p0 :: rest → strip s ≠ "".
Proof. intros Hs He. rewrite He in Hs. discriminate Hs. Qed.

(** C5: an empty or white-space-only command is rejected with the
    bad-request error, whatever the mapping table, and no response is
    produced for it. *)
Theorem blank_command_rejected m (request : UnixCommand) :
  blank (command request) →
  convert_command m request
  = inl {| status_code := 400; detail := "Command cannot be empty" |}
  ∧ ∀ response, convert_command m request ≠ inr response.
Proof.
  intros Hb%strip_empty_iff. unfold convert_command.
  rewrite bool_decide_eq_true_2 by done. split; [reflexivity|discriminate].
Qed.

Lemma blank_command_rejected_witness :
  blank "  "
  ∧ convert_command default_mappings
      {| command := "  "; include_explanation := Some true |}
    = inl {| status_code := 400; detail := "Command cannot be empty" |}.
Proof.
  split; [repeat constructor|].
  apply (blank_command_rejected default_mappings
           {| command := "  "; include_explanation := Some true |}).
  repeat constructor.
Defined.

(** The bad-request error is raised for blank commands only. *)
Lemma bad_request_only_blank m (request : UnixCommand) d :
  convert_command m request = inl {| status_code := 400; detail := d |} →
  blank (command request).
Proof.
  unfold convert_command. case_bool_decide as Hs.
  - intros _. by apply strip_empty_iff.
  - destruct (_ ≫= _) as [e|[ps ex]]; [discriminate|].
    by destruct (truthy _).
Qed.

(** C4: a line whose base token is not a key of the mapping table is
    converted to the placeholder naming that token, with an explanation
    that names it too, and the response has status [success]. *)
Theorem unmapped_command_soft_miss m line base args incl :
  split (strip line) = base :: args →
  m !! base = None →
  convert_unix_to_powershell m line
  = inr (Some ("# No direct mapping found for '" +:+ base +:+ "'",
               "Command '" +:+ base
                 +:+ "' doesn't have a direct PowerShell equivalent in our database"))
  ∧ convert_command m {| command := line; include_explanation := incl |}
    = inr {| unix_command := line;
             powershell_command :=
               "# No direct mapping found for '" +:+ base +:+ "'";
             explanation :=
               if truthy incl
               then Some ("Command '" +:+ base
                            +:+ "' doesn't have a direct PowerShell equivalent in our database")
               else None;
             status := "success" |}.
Proof.
  intros Hparts Hm.
  assert (convert_unix_to_powershell m line
          = inr (Some ("# No direct mapping found for '" +:+ base +:+ "'",
               "Command '" +:+ base
                 +:+ "' doesn't have a direct PowerShell equivalent in our database")))
    as Hengine.
  { tokenized Hparts. by rewrite Hm. }
  split; [done|].
  unfold convert_command; cbn [command include_explanation].
  rewrite bool_decide_eq_false_2 by eauto using split_nonempty_strip.
  rewrite Hengine. cbn. by destruct (truthy incl).
Qed.

Lemma unmapped_command_soft_miss_witness :
  split (strip "zork somearg") = ["zork"; "somearg"]
  ∧ default_mappings !! "zork" = None
  ∧ convert_command default_mappings
      {| command := "zork somearg"; include_explanation := Some true |}
    = inr {| unix_command := "zork somearg";
             powershell_command := "# No direct mapping found for 'zork'";
             explanation :=
               Some "Command 'zork' doesn't have a direct PowerShell equivalent in our database";
             status := "success" |}.
Proof.
  split; [reflexivity|]. split; [reflexivity|].
  apply (unmapped_command_soft_miss default_mappings "zork somearg"
           "zork" ["somearg"] (Some true)); reflexivity.
Defined.

End Endpoint.

(** ** The rewrite rules *)

Section Rules.

Implicit Types (m : gmap string string) (line base tpl : string).
Implicit Types (args : list string).

(** C6: the rule of [ls]: [-la] or [-l] among the arguments gives the
    detailed listing; otherwise [-a] gives the listing with hidden files;
    otherwise the template is returned as it is. The first test wins over
    the second, so [-la] or [-l] never gives the [-Force] form. *)
Theorem ls_rule m line tpl args :
  m !! "ls" = Some tpl →
  split (strip line) = "ls" :: args →
  ∃ ps expl,
    convert_unix_to_powershell m line = inr (Some (ps, expl))
    ∧ ("-la" ∈ args ∨ "-l" ∈ args → ps = "Get-ChildItem | Format-List")
    ∧ ("-la" ∉ args → "-l" ∉ args → "-a" ∈ args →
       ps = "Get-ChildItem -Force")
    ∧ ("-la" ∉ args → "-l" ∉ args → "-a" ∉ args → ps = tpl)
    ∧ ("-la" ∈ args ∨ "-l" ∈ args → ps ≠ "Get-ChildItem -Force").
Proof.
  intros Hm Hparts. tokenized Hparts. rewrite Hm.
  destruct (contains args "-la") eqn:Hla;
    destruct (contains args "-l") eqn:Hl;
    destruct (contains args "-a") eqn:Ha;
    (eexists _, _; split; [reflexivity|]);
    contains_hyps; repeat split; intros; try tauto; try discriminate.
Qed.

Lemma ls_rule_witness :
  default_mappings !! "ls" = Some "Get-ChildItem"
  ∧ split (strip "ls -la") = ["ls"; "-la"]
  ∧ ∃ ps expl,
      convert_unix_to_powershell default_mappings "ls -la"
      = inr (Some (ps, expl))
      ∧ ps = "Get-ChildItem | Format-List".
Proof.
  split; [reflexivity|]. split; [reflexivity|].
  destruct (ls_rule default_mappings "ls -la" "Get-ChildItem" ["-la"]
              eq_refl eq_refl) as (ps & expl & Hconv & Hlist & _).
  exists ps, expl. split; [exact Hconv|].
  apply Hlist. left. apply list_elem_of_here.
Defined.

(** C3: the rule of [head] and [tail], with [-First] for [head] and
    [-Last] for [tail]: a first argument that begins with a dash gives the
    count, the text after the dash; with a second argument, the file, the
    output reads the file and selects [count] lines, without one it is the
    selection alone; with no argument, or a first argument that does not
    begin with a dash, the output is the default of 10 lines, whatever
    follows. So [tail file.txt] gives the default and ignores the file. *)
Theorem head_tail_rule :
  (∀ m line base sel tpl args,
     (base, sel) ∈ [("head", "First"); ("tail", "Last")] →
     m !! base = Some tpl →
     split (strip line) = base :: args →
     ∃ ps expl,
       convert_unix_to_powershell m line = inr (Some (ps, expl))
       ∧ (∀ count file rest,
            args = String "-" count :: file :: rest →
            ps = "Get-Content '" +:+ file +:+ "' | Select-Object -"
                   +:+ sel +:+ " " +:+ count)
       ∧ (∀ count,
            args = [String "-" count] →
            ps = "Select-Object -" +:+ sel +:+ " " +:+ count)
       ∧ (args = [] ∨ (∃ a0 rest, args = a0 :: rest
                                  ∧ startswith a0 "-" = false) →
          ps = "Get-Content | Select-Object -" +:+ sel +:+ " 10"))
  ∧ convert_unix_to_powershell default_mappings "tail file.txt"
    = inr (Some ("Get-Content | Select-Object -Last 10",
                 "Shows last 10 lines (default)")).
Proof.
  split; [|reflexivity].
  intros m line base sel tpl args Hbase Hm Hparts.
  tokenized Hparts. rewrite Hm.
  assert (base = "head" ∧ sel = "First" ∨ base = "tail" ∧ sel = "Last")
    as [[-> ->]|[-> ->]].
  { rewrite !elem_of_cons, elem_of_nil in Hbase.
    destruct Hbase as [[= -> ->]|[[= -> ->]|[]]]; auto. }
  all: destruct args as [|a0 [|a1 rest]];
    [ eexists _, _; split; [reflexivity|]
    | destruct (startswith a0 "-") eqn:Hdash;
      (eexists _, _; split;
       [cbn -[startswith]; rewrite Hdash; reflexivity|])
    | destruct (startswith a0 "-") eqn:Hdash;
      (eexists _, _; split;
       [cbn -[startswith]; rewrite Hdash; reflexivity|]) ].
  all: repeat split.
  all: try (intros count file rest' [=]); try (intros count [=]);
    subst; try reflexivity; try discriminate.
  all: try (intros [[=]|(b0 & rest' & [=] & Hb)]; subst;
            try reflexivity; congruence).
  all: match goal with
       | H : startswith (String _ _) _ = false |- _ =>
           cbv in H; discriminate H
       end.
Qed.

Lemma head_tail_rule_witness :
  ("head", "First") ∈ [("head", "First"); ("tail", "Last")]
  ∧ default_mappings !! "head" = Some "Get-Content | Select-Object -First"
  ∧ split (strip "head -5 file.txt") = ["head"; "-5"; "file.txt"]
  ∧ ∃ ps expl,
      convert_unix_to_powershell default_mappings "head -5 file.txt"
      = inr (Some (ps, expl))
      ∧ ps = "Get-Content 'file.txt' | Select-Object -First 5".
Proof.
  split; [apply list_elem_of_here|]. split; [reflexivity|].
  split; [reflexivity|].
  destruct (proj1 head_tail_rule default_mappings "head -5 file.txt"
              "head" "First" "Get-Content | Select-Object -First"
              ["-5"; "file.txt"] (list_elem_of_here _ _) eq_refl eq_refl)
    as (ps & expl & Hconv & Hfile & _).
  exists ps, expl. split; [exact Hconv|].
  apply (Hfile "5" "file.txt" []). reflexivity.
Defined.

(** C10: the count of [head] and [tail] is not checked to be a number:
    whatever follows the dash of the first argument is put as it is after
    [-First] or [-Last], and the second argument, when there is one, is
    the file. So [head -n 5] selects [n] lines of the file [5]. *)
Theorem head_tail_count_verbatim :
  (∀ m line base sel tpl count rest,
     (base, sel) ∈ [("head", "First"); ("tail", "Last")] →
     m !! base = Some tpl →
     split (strip line) = base :: String "-" count :: rest →
     ∃ expl,
       convert_unix_to_powershell m line
       = inr (Some (match rest with
                    | [] => "Select-Object -" +:+ sel +:+ " " +:+ count
                    | file :: _ =>
                        "Get-Content '" +:+ file
                          +:+ "' | Select-Object -" +:+ sel +:+ " "
                          +:+ count
                    end, expl)))
  ∧ convert_unix_to_powershell default_mappings "head -n 5"
    = inr (Some ("Get-Content '5' | Select-Object -First n",
                 "Shows first n lines of file '5'")).
Proof.
  split; [|reflexivity].
  intros m line base sel tpl count rest Hbase Hm Hparts.
  tokenized Hparts. rewrite Hm.
  rewrite !elem_of_cons, elem_of_nil in Hbase.
  destruct Hbase as [[= -> ->]|[[= -> ->]|[]]];
    destruct rest as [|file rest]; eexists; reflexivity.
Qed.

Lemma head_tail_count_verbatim_witness :
  ("tail", "Last") ∈ [("head", "First"); ("tail", "Last")]
  ∧ default_mappings !! "tail" = Some "Get-Content | Select-Object -Last"
  ∧ split (strip "tail -f log.txt") = ["tail"; "-f"; "log.txt"]
  ∧ ∃ expl,
      convert_unix_to_powershell default_mappings "tail -f log.txt"
      = inr (Some ("Get-Content 'log.txt' | Select-Object -Last f", expl)).
Proof.
  split; [apply list_elem_of_further, list_elem_of_here|].
  split; [reflexivity|]. split; [reflexivity|].
  apply (proj1 head_tail_count_verbatim default_mappings "tail -f log.txt"
           "tail" "Last" "Get-Content | Select-Object -Last" "f"
           ["log.txt"]);
    [apply list_elem_of_further, list_elem_of_here|reflexivity..].
Defined.

(** C7: the rule of [cd], [mkdir], [rmdir], [rm], [cp], [mv] and [cat]:
    with arguments, they are all joined with one space into a single
    target, put between single quotes after the template; with none, the
    template is returned alone. *)
Theorem quoted_target_rule :
  (∀ m line base tpl args,
     base ∈ ["cd"; "mkdir"; "rmdir"; "rm"; "cp"; "mv"; "cat"] →
     m !! base = Some tpl →
     split (strip line) = base :: args →
     ∃ expl,
       convert_unix_to_powershell m line
       = inr (Some (match args with
                    | [] => tpl
                    | _ :: _ => tpl +:+ " '" +:+ join " " args +:+ "'"
                    end, expl)))
  ∧ convert_unix_to_powershell default_mappings "rm myfile.txt"
    = inr (Some ("Remove-Item 'myfile.txt'",
                 "Performs rm operation on 'myfile.txt'"))
  ∧ convert_unix_to_powershell default_mappings "cp a b"
    = inr (Some ("Copy-Item 'a b'", "Performs cp operation on 'a b'")).
Proof.
  split; [|split; reflexivity].
  intros m line base tpl args Hbase Hm Hparts.
  tokenized Hparts. rewrite Hm.
  rewrite !elem_of_cons, elem_of_nil in Hbase.
  destruct Hbase as [->|[->|[->|[->|[->|[->|[->|[]]]]]]]];
    destruct args as [|a0 rest]; eexists; reflexivity.
Qed.

Lemma quoted_target_rule_witness :
  "mv" ∈ ["cd"; "mkdir"; "rmdir"; "rm"; "cp"; "mv"; "cat"]
  ∧ default_mappings !! "mv" = Some "Move-Item"
  ∧ split (strip " mv old.txt  new.txt") = ["mv"; "old.txt"; "new.txt"]
  ∧ ∃ expl,
      convert_unix_to_powershell default_mappings " mv old.txt  new.txt"
      = inr (Some ("Move-Item 'old.txt new.txt'", expl)).
Proof.
  assert ("mv" ∈ ["cd"; "mkdir"; "rmdir"; "rm"; "cp"; "mv"; "cat"])
    as Hmv by (do 5 apply list_elem_of_further; apply list_elem_of_here).
  split; [exact Hmv|]. split; [reflexivity|]. split; [reflexivity|].
  apply (proj1 quoted_target_rule default_mappings " mv old.txt  new.txt"
           "mv" "Move-Item" ["old.txt"; "new.txt"] Hmv);
    reflexivity.
Defined.

End Rules.

(** ** The rule of [find] *)

Section Find.

Implicit Types (m : gmap string string) (line tpl pattern : string).
Implicit Types (pre post : list string).

(** The engine on [find] followed by arguments whose first [-name] is at
    position [length pre]. *)
Lemma find_with_name m line tpl pre post :
  m !! "find" = Some tpl →
  split (strip line) = "find" :: pre ++ "-name" :: post →
  "-name" ∉ pre →
  convert_unix_to_powershell m line
  = match post with
    | pattern :: _ =>
        return_pair
          ("Get-ChildItem -Recurse -Name '*" +:+ pattern +:+ "*'")
          ("Finds files matching pattern '" +:+ pattern +:+ "'")
    | [] => return_None
    end.
Proof.
  intros Hm Hparts Hpre. tokenized Hparts. rewrite Hm.
  set (args := pre ++ "-name" :: post).
  assert ((1 <=? length args) = true) as Hlen.
  { apply Nat.leb_le. unfold args. rewrite length_app. simpl. lia. }
  assert (contains args "-name" = true) as Hin.
  { apply contains_true, elem_of_app. right. apply list_elem_of_here. }
  assert (index args "-name" = inr (length pre)) as Hidx.
  { unfold index, args. by rewrite index_from_app. }
  rewrite !bool_decide_eq_false_2 by done.
  rewrite bool_decide_eq_true_2 by done.
  rewrite Hlen, Hin, Hidx. cbn [mbind result_bind].
  destruct post as [|pattern post].
  - assert ((length pre + 1 <? length args) = false) as ->; [|done].
    apply Nat.ltb_ge. unfold args. rewrite length_app. simpl. lia.
  - assert ((length pre + 1 <? length args) = true) as ->.
    { apply Nat.ltb_lt. unfold args. rewrite length_app. simpl. lia. }
    assert (getitem args (length pre + 1) = inr pattern) as ->; [|done].
    unfold getitem, args. rewrite lookup_app_r by lia.
    by replace (length pre + 1 - length pre) with 1 by lia.
Qed.

(** C8: when a token follows the first [-name] of the arguments of
    [find], it is the pattern, and the output is the recursive listing by
    name with the pattern put as it is between two asterisks. *)
Theorem find_name_rule :
  (∀ m line tpl pre pattern post,
     m !! "find" = Some tpl →
     split (strip line) = "find" :: pre ++ "-name" :: pattern :: post →
     "-name" ∉ pre →
     ∃ expl,
       convert_unix_to_powershell m line
       = inr (Some ("Get-ChildItem -Recurse -Name '*" +:+ pattern +:+ "*'",
                    expl)))
  ∧ convert_unix_to_powershell default_mappings "find -name *.txt"
    = inr (Some ("Get-ChildItem -Recurse -Name '**.txt*'",
                 "Finds files matching pattern '*.txt'")).
Proof.
  split; [|reflexivity].
  intros m line tpl pre pattern post Hm Hparts Hpre.
  rewrite (find_with_name m line tpl pre (pattern :: post)) by done.
  by eexists.
Qed.

Lemma find_name_rule_witness :
  default_mappings !! "find" = Some "Get-ChildItem -Recurse"
  ∧ split (strip "find . -name core -name x")
    = "find" :: (["."] ++ "-name" :: "core" :: ["-name"; "x"])
  ∧ ("-name" ∉ ["."])
  ∧ ∃ expl,
      convert_unix_to_powershell default_mappings
        "find . -name core -name x"
      = inr (Some ("Get-ChildItem -Recurse -Name '*core*'", expl)).
Proof.
  assert ("-name" ∉ ["."]) as Hpre.
  { intros Hin. apply list_elem_of_singleton in Hin. discriminate Hin. }
  split; [reflexivity|]. split; [reflexivity|]. split; [exact Hpre|].
  apply (proj1 find_name_rule default_mappings
           "find . -name core -name x" "Get-ChildItem -Recurse"
           ["."] "core" ["-name"; "x"] eq_refl eq_refl Hpre).
Defined.

(** When the first [-name] is the last argument, no [return] is reached:
    the engine returns [None]. *)
Lemma find_name_last_falls_off m line tpl pre :
  m !! "find" = Some tpl →
  split (strip line) = "find" :: pre ++ ["-name"] →
  "-name" ∉ pre →
  convert_unix_to_powershell m line = inr None.
Proof.
  intros Hm Hparts Hpre.
  by rewrite (find_with_name m line tpl pre []).
Qed.

(** C1: on [find -name] the engine does not fall back to the positional
    path: it reaches no [return] and yields [None], not a pair, and the
    endpoint answers with the internal error 500. *)
Theorem find_trailing_name_no_result :
  convert_unix_to_powershell default_mappings "find -name" = inr None
  ∧ convert_command default_mappings
      {| command := "find -name"; include_explanation := Some true |}
    = inl {| status_code := 500;
             detail :=
               "Error converting command: cannot unpack non-iterable NoneType object" |}
  ∧ convert_unix_to_powershell default_mappings "find . -name" = inr None.
Proof. repeat split; reflexivity. Qed.

End Find.

(** ** The placeholder prefix *)

Section Placeholder.

Implicit Types (m : gmap string string) (line tpl s : string).

(** A string that does not begin with [#] does not begin with the
    placeholder prefix. *)
Lemma no_hash_no_placeholder s :
  startswith s "#" = false → startswith s placeholder_prefix = false.
Proof.
  destruct s as [|c s]; [done|].
  unfold placeholder_prefix. cbn [startswith].
  destruct (Ascii.eqb "#" c); [done|]. by intros _.
Qed.

Lemma no_hash_app s suffix :
  startswith s "#" = false → startswith suffix "#" = false →
  startswith (s +:+ suffix) "#" = false.
Proof. destruct s as [|c s]; [done|]. intros Hs _. exact Hs. Qed.

Lemma default_templates_no_hash :
  map_Forall (λ _ tpl, startswith tpl "#" = false) default_mappings.
Proof. apply (bool_decide_unpack _). vm_compute. exact I. Qed.

(** C9, as the specification states it, fails: a table can map a command
    to a template that begins with the placeholder prefix, and the rule of
    that mapped command returns the template. *)
Lemma placeholder_prefix_from_mapped_template :
  ∃ ps expl,
    convert_unix_to_powershell
      (<["todo" := "# No direct mapping found for now"]> default_mappings)
      "todo"
    = inr (Some (ps, expl))
    ∧ startswith ps placeholder_prefix = true
    ∧ (<["todo" := "# No direct mapping found for now"]> default_mappings)
        !! first_or_empty (split (strip "todo")) ≠ None.
Proof.
  eexists _, _. split; [vm_compute; reflexivity|].
  split; [reflexivity|]. vm_compute. discriminate.
Qed.

(** C9, amended: for a mapping table none of whose templates begins with
    [#], the built-in table among them, whenever the conversion of a line
    produces a result, the PowerShell command begins with the placeholder
    prefix if and only if the base token of the line is not a key of the
    table. *)
Theorem placeholder_prefix_iff_unmapped m line ps expl :
  map_Forall (λ _ tpl, startswith tpl "#" = false) m →
  convert_unix_to_powershell m line = inr (Some (ps, expl)) →
  startswith ps placeholder_prefix = true
  ↔ m !! first_or_empty (split (strip line)) = None.
Proof.
  intros Hm. unfold convert_unix_to_powershell. cbv zeta.
  set (base := first_or_empty (split (strip line))).
  set (args := if 1 <? length (split (strip line))
               then drop 1 (split (strip line)) else []).
  clearbody base args.
  destruct (m !! base) as [tpl|] eqn:Hbase.
  - apply Hm in Hbase. intros H.
    enough (startswith ps placeholder_prefix = false) as ->; [done|].
    apply no_hash_no_placeholder.
    unfold return_pair, return_None, mbind, mret, result_bind, result_ret
      in H.
    repeat match type of H with
           | match ?x with _ => _ end = _ => destruct x
           end;
      try discriminate H; injection H as <- <-;
      first [ reflexivity | assumption
            | apply no_hash_app; [assumption|reflexivity] ].
  - intros [= <- <-]. done.
Qed.

Lemma placeholder_prefix_iff_unmapped_witness :
  map_Forall (λ _ tpl, startswith tpl "#" = false) default_mappings
  ∧ convert_unix_to_powershell default_mappings "ls -la"
    = inr (Some ("Get-ChildItem | Format-List",
                 "Lists files with detailed information"))
  ∧ (startswith "Get-ChildItem | Format-List" placeholder_prefix = true
     ↔ default_mappings !! first_or_empty (split (strip "ls -la")) = None).
Proof.
  split; [exact default_templates_no_hash|]. split; [reflexivity|].
  exact (placeholder_prefix_iff_unmapped default_mappings "ls -la"
           "Get-ChildItem | Format-List"
           "Lists files with detailed information"
           default_templates_no_hash eq_refl).
Defined.

End Placeholder.

(** ** The engine raises no exception *)

Section Totality.

Implicit Types (m : gmap string string) (line : string).

Lemma index_of_member (args : list string) x :
  contains args x = true →
  ∃ i, index args x = inr i ∧ i < length args.
Proof.
  intros Hin%contains_true. unfold index.
  destruct (index_from x args 0) as [i|] eqn:Hi.
  - exists i. split; [done|].
    apply index_from_Some in Hi as [_ Hi]. rewrite Nat.sub_0_r in Hi.
    by apply lookup_lt_Some in Hi.
  - by apply index_from_None in Hi.
Qed.

Lemma getitem_in_range (args : list string) i :
  i < length args → ∃ x, getitem args i = inr x.
Proof.
  intros [x Hx]%lookup_lt_is_Some. exists x. unfold getitem. by rewrite Hx.
Qed.

(** Every index of the engine is guarded by a length test and [index] by a
    membership test: a conversion returns, a pair or [None]. *)
Lemma convert_returns m line :
  ∃ r, convert_unix_to_powershell m line = inr r.
Proof.
  unfold convert_unix_to_powershell. cbv zeta.
  set (base := first_or_empty (split (strip line))).
  set (args := if 1 <? length (split (strip line))
               then drop 1 (split (strip line)) else []).
  clearbody base args.
  destruct (m !! base) as [tpl|]; [|by eexists].
  destruct (bool_decide (base = "ls"));
    [by repeat (case_match; try by eexists)|].
  destruct (bool_decide (base = "grep"));
    [by destruct args as [|a0 [|a1 rest]]; eexists|].
  destruct (bool_decide (base = "find")).
  { destruct (1 <=? length args) eqn:Hlen; [|by eexists].
    destruct (contains args "-name") eqn:Hin.
    - destruct (index_of_member args "-name" Hin) as (i & -> & Hi).
      cbn [mbind result_bind].
      destruct (i + 1 <? length args) eqn:Hlt; [|by eexists].
      apply Nat.ltb_lt in Hlt.
      destruct (getitem_in_range args (i + 1) Hlt) as [pattern ->].
      by eexists.
    - destruct args as [|a0 rest]; [done|]. by eexists. }
  destruct (bool_decide (base = "head")).
  { destruct args as [|a0 [|a1 rest]]; cbn -[startswith];
      try destruct (startswith a0 "-"); by eexists. }
  destruct (bool_decide (base = "tail")).
  { destruct args as [|a0 [|a1 rest]]; cbn -[startswith];
      try destruct (startswith a0 "-"); by eexists. }
  destruct (bool_decide (base = "kill"));
    [by destruct args as [|a0 rest]; eexists|].
  by repeat (case_match; try by eexists).
Qed.

End Totality.

(** ** The remaining rewrite rules *)

Section MoreRules.

Implicit Types (m : gmap string string) (line base tpl : string).
Implicit Types (args : list string).

(** X1: the rule of [grep]: without arguments the template; with one, the
    pattern; with two or more, the pattern and the file, the arguments after
    the second being dropped. *)
Theorem grep_rule m line tpl args :
  m !! "grep" = Some tpl →
  split (strip line) = "grep" :: args →
  convert_unix_to_powershell m line
  = inr (Some
      match args with
      | [] => (tpl, "Searches for patterns in text")
      | [pattern] =>
          ("Select-String -Pattern '" +:+ pattern +:+ "'",
           "Searches for pattern '" +:+ pattern +:+ "' in input")
      | pattern :: file :: _ =>
          ("Select-String -Pattern '" +:+ pattern +:+ "' -Path '"
             +:+ file +:+ "'",
           "Searches for pattern '" +:+ pattern +:+ "' in file '"
             +:+ file +:+ "'")
      end).
Proof.
  intros Hm Hparts. tokenized Hparts. rewrite Hm.
  by destruct args as [|pattern [|file rest]].
Qed.

Lemma grep_rule_witness :
  default_mappings !! "grep" = Some "Select-String"
  ∧ split (strip "grep -i foo file.txt") = ["grep"; "-i"; "foo"; "file.txt"]
  ∧ convert_unix_to_powershell default_mappings "grep -i foo file.txt"
    = inr (Some ("Select-String -Pattern '-i' -Path 'foo'",
                 "Searches for pattern '-i' in file 'foo'")).
Proof.
  split; [reflexivity|]. split; [reflexivity|].
  exact (grep_rule default_mappings "grep -i foo file.txt" "Select-String"
           ["-i"; "foo"; "file.txt"] eq_refl eq_refl).
Defined.

(** X2: the rule of [kill]: the first argument is the process id, put
    unquoted after [Stop-Process -Id]; every further argument, a signal
    included, is dropped; without arguments the template is returned. *)
Theorem kill_rule m line tpl args :
  m !! "kill" = Some tpl →
  split (strip line) = "kill" :: args →
  convert_unix_to_powershell m line
  = inr (Some
      match args with
      | [] => (tpl, "Terminates processes")
      | pid :: _ =>
          ("Stop-Process -Id " +:+ pid,
           "Terminates process with ID " +:+ pid)
      end).
Proof.
  intros Hm Hparts. tokenized Hparts. rewrite Hm.
  by destruct args as [|pid rest].
Qed.

Lemma kill_rule_witness :
  default_mappings !! "kill" = Some "Stop-Process"
  ∧ split (strip "kill -9 1234") = ["kill"; "-9"; "1234"]
  ∧ convert_unix_to_powershell default_mappings "kill -9 1234"
    = inr (Some ("Stop-Process -Id -9", "Terminates process with ID -9")).
Proof.
  split; [reflexivity|]. split; [reflexivity|].
  exact (kill_rule default_mappings "kill -9 1234" "Stop-Process"
           ["-9"; "1234"] eq_refl eq_refl).
Defined.

(** X3: the rule of [find] without [-name]: the first argument is the path
    of a recursive listing and the others are dropped; without arguments
    the template is returned. *)
Theorem find_path_rule m line tpl args :
  m !! "find" = Some tpl →
  split (strip line) = "find" :: args →
  "-name" ∉ args →
  convert_unix_to_powershell m line
  = inr (Some
      match args with
      | [] => (tpl, "Finds files and directories")
      | path :: _ =>
          ("Get-ChildItem -Path '" +:+ path +:+ "' -Recurse",
           "Lists all files in directory '" +:+ path +:+ "' recursively")
      end).
Proof.
  intros Hm Hparts Hname%contains_false. tokenized Hparts. rewrite Hm.
  rewrite !bool_decide_eq_false_2 by done.
  rewrite bool_decide_eq_true_2 by done.
  rewrite Hname. by destruct args as [|path rest].
Qed.

Lemma find_path_rule_witness :
  default_mappings !! "find" = Some "Get-ChildItem -Recurse"
  ∧ split (strip "find /tmp -type f") = ["find"; "/tmp"; "-type"; "f"]
  ∧ ("-name" ∉ ["/tmp"; "-type"; "f"])
  ∧ convert_unix_to_powershell default_mappings "find /tmp -type f"
    = inr (Some ("Get-ChildItem -Path '/tmp' -Recurse",
                 "Lists all files in directory '/tmp' recursively")).
Proof.
  assert ("-name" ∉ ["/tmp"; "-type"; "f"]) as Hname.
  { apply (bool_decide_unpack _). vm_compute. exact I. }
  split; [reflexivity|]. split; [reflexivity|]. split; [exact Hname|].
  exact (find_path_rule default_mappings "find /tmp -type f"
           "Get-ChildItem -Recurse" ["/tmp"; "-type"; "f"]
           eq_refl eq_refl Hname).
Defined.

(** X4: the default rule: a mapped command without a rule of its own is
    converted to its template, followed, when there are arguments, by one
    space and the arguments joined with one space, unquoted. *)
Theorem default_rule m line base tpl args :
  base ∉ special_commands →
  m !! base = Some tpl →
  split (strip line) = base :: args →
  convert_unix_to_powershell m line
  = inr (Some
      match args with
      | [] => (tpl, "PowerShell equivalent of " +:+ base)
      | _ :: _ =>
          (tpl +:+ " " +:+ join " " args,
           "PowerShell equivalent of " +:+ base +:+ " with arguments")
      end).
Proof.
  intros Hbase Hm Hparts. tokenized Hparts. rewrite Hm.
  unfold special_commands in Hbase.
  rewrite !not_elem_of_cons in Hbase.
  destruct Hbase as (?&?&?&?&?&?&?&?&?&?&?&?&?&_).
  rewrite !bool_decide_eq_false_2 by done.
  assert (contains ["cd"; "mkdir"; "rmdir"; "rm"; "cp"; "mv"; "cat"] base
          = false) as ->.
  { apply contains_false. rewrite !not_elem_of_cons.
    repeat split; try done. apply not_elem_of_nil. }
  by destruct args as [|a0 rest].
Qed.

Lemma default_rule_witness :
  ("echo" ∉ special_commands)
  ∧ default_mappings !! "echo" = Some "Write-Output"
  ∧ split (strip "echo hello   world") = ["echo"; "hello"; "world"]
  ∧ convert_unix_to_powershell default_mappings "echo hello   world"
    = inr (Some ("Write-Output hello world",
                 "PowerShell equivalent of echo with arguments")).
Proof.
  assert ("echo" ∉ special_commands) as Hecho.
  { apply (bool_decide_unpack _). vm_compute. exact I. }
  split; [exact Hecho|]. split; [reflexivity|]. split; [reflexivity|].
  exact (default_rule default_mappings "echo hello   world" "echo"
           "Write-Output" ["hello"; "world"] Hecho eq_refl eq_refl).
Defined.

End MoreRules.

(** ** The tokenizer *)

Section Tokens.

Implicit Types (s t : string) (c : ascii).

Lemma split_blank s : blank s → split s = [].
Proof.
  induction s as [|c s IH]; [done|].
  intros [Hc Hs]%blank_cons. simpl. rewrite Hc. auto.
Qed.

Lemma split_nil_blank s : split s = [] → blank s.
Proof.
  induction s as [|c s IH]; [intros; apply blank_nil|].
  simpl. destruct (isspace c) eqn:Hc.
  - intros Hs. apply blank_cons. auto.
  - destruct s as [|c' s']; [done|].
    destruct (isspace c'); [done|]. by destruct (split (String c' s')).
Qed.

Lemma split_lstrip s : split (lstrip s) = split s.
Proof.
  induction s as [|c s IH]; [done|].
  cbn [lstrip]. destruct (isspace c) eqn:Hc; [|done].
  cbn [split]. by rewrite Hc.
Qed.

Lemma rstrip_head c s d r : rstrip (String c s) = String d r → d = c.
Proof.
  simpl. destruct (rstrip s); [destruct (isspace c)|]; congruence.
Qed.

Lemma split_rstrip s : split (rstrip s) = split s.
Proof.
  induction s as [|c s IH]; [done|].
  cbn [rstrip]. destruct (rstrip s) as [|d r] eqn:Hr.
  - apply rstrip_empty in Hr. cbn [split].
    destruct (isspace c) eqn:Hc.
    + exact IH.
    + cbn [split]. rewrite Hc.
      destruct s as [|c' s']; [done|].
      apply blank_cons in Hr as Hc'. destruct Hc' as [Hc' _].
      by rewrite Hc', split_blank.
  - destruct s as [|c' s']; [done|].
    apply rstrip_head in Hr as Hd. subst d.
    cbn [split] in *. destruct (isspace c); [done|].
    destruct (isspace c'); by rewrite IH.
Qed.

(** Stripping before splitting changes nothing. *)
Lemma split_strip s : split (strip s) = split s.
Proof. unfold strip. by rewrite split_rstrip, split_lstrip. Qed.

Lemma token_cons c t :
  token (String c t) ↔ isspace c = false ∧ (t = "" ∨ token t).
Proof.
  unfold token; simpl. split.
  - intros [_ Hall]. inversion Hall; subst. split; [done|].
    destruct t; [by left|by right].
  - intros [Hc [->|[_ Ht]]]; (split; [done|]); by repeat constructor.
Qed.

Lemma split_tokens s : Forall token (split s).
Proof.
  induction s as [|c s IH]; [constructor|].
  cbn [split]. destruct (isspace c) eqn:Hc; [done|].
  destruct s as [|c' s'].
  { repeat constructor; [done|by rewrite Hc]. }
  destruct (isspace c') eqn:Hc'.
  - constructor; [|done]. apply token_cons. auto.
  - destruct (split (String c' s')) as [|w ws]; inversion IH; subst.
    + constructor; [|done]. apply token_cons. auto.
    + constructor; [|done]. apply token_cons. auto.
Qed.

Lemma split_token_sep t rest :
  token t → split (t +:+ String " " rest) = t :: split rest.
Proof.
  induction t as [|c t IH]; [by intros [? _]|].
  intros [Hc Ht]%token_cons.
  change (String c t +:+ String " " rest)
    with (String c (t +:+ String " " rest)).
  cbn [split]. rewrite Hc. destruct Ht as [->|Ht]; [done|].
  destruct t as [|c' t']; [by destruct Ht|].
  change (String c' t' +:+ String " " rest)
    with (String c' (t' +:+ String " " rest)) in *.
  apply token_cons in Ht as Hc'. destruct Hc' as [Hc' _].
  by rewrite Hc', (IH Ht).
Qed.

Lemma split_token t : token t → split t = [t].
Proof.
  induction t as [|c t IH]; [by intros [? _]|].
  intros [Hc Ht]%token_cons. cbn [split]. rewrite Hc.
  destruct Ht as [->|Ht]; [done|].
  destruct t as [|c' t']; [by destruct Ht|].
  apply token_cons in Ht as Hc'. destruct Hc' as [Hc' _].
  by rewrite Hc', (IH Ht).
Qed.

Lemma split_join (l : list string) :
  Forall token l → split (join " " l) = l.
Proof.
  induction l as [|t l IH]; [done|].
  intros Htl. inversion Htl as [|?? Ht Hl]; subst.
  destruct l as [|t' l'].
  - by apply split_token.
  - change (join " " (t :: t' :: l'))
      with (t +:+ String " " (join " " (t' :: l'))).
    by rewrite split_token_sep, IH.
Qed.

End Tokens.

(** ** The engine as a whole *)

Section Engine.

Implicit Types (m : gmap string string) (line base tpl : string).
Implicit Types (args : list string).

Lemma unmapped_pair m line :
  m !! first_or_empty (split (strip line)) = None →
  convert_unix_to_powershell m line
  = return_pair
      ("# No direct mapping found for '"
         +:+ first_or_empty (split (strip line)) +:+ "'")
      ("Command '" +:+ first_or_empty (split (strip line))
         +:+ "' doesn't have a direct PowerShell equivalent in our database").
Proof.
  intros Hm. unfold convert_unix_to_powershell. cbv zeta. by rewrite Hm.
Qed.

Lemma find_without_name m line tpl args :
  m !! "find" = Some tpl →
  split (strip line) = "find" :: args →
  contains args "-name" = false →
  ∃ p, convert_unix_to_powershell m line = inr (Some p).
Proof.
  intros Hm Hparts Hname. tokenized Hparts. rewrite Hm.
  rewrite !bool_decide_eq_false_2 by done.
  rewrite bool_decide_eq_true_2 by done.
  rewrite Hname. destruct args as [|path rest]; by eexists.
Qed.

Lemma convert_pair_unless_find m line :
  first_or_empty (split (strip line)) ≠ "find" →
  ∃ p, convert_unix_to_powershell m line = inr (Some p).
Proof.
  unfold convert_unix_to_powershell. cbv zeta.
  set (base := first_or_empty (split (strip line))).
  set (args := if 1 <? length (split (strip line))
               then drop 1 (split (strip line)) else []).
  clearbody base args. intros Hbase.
  destruct (m !! base) as [tpl|]; [|by eexists].
  rewrite (bool_decide_eq_false_2 (base = "find")) by done.
  destruct (bool_decide (base = "ls"));
    [by repeat (case_match; try by eexists)|].
  destruct (bool_decide (base = "grep"));
    [by destruct args as [|a0 [|a1 rest]]; eexists|].
  destruct (bool_decide (base = "head")).
  { destruct args as [|a0 [|a1 rest]]; cbn -[startswith];
      try destruct (startswith a0 "-"); by eexists. }
  destruct (bool_decide (base = "tail")).
  { destruct args as [|a0 [|a1 rest]]; cbn -[startswith];
      try destruct (startswith a0 "-"); by eexists. }
  destruct (bool_decide (base = "kill"));
    [by destruct args as [|a0 rest]; eexists|].
  by repeat (case_match; try by eexists).
Qed.

(** X5: the engine raises no exception, whatever the table and the line:
    every index is guarded by a length test and [index] by a membership
    test. The only error of the conversion endpoint that comes from the
    engine is therefore the unpacking of [None]. *)
Theorem convert_never_raises m line e :
  convert_unix_to_powershell m line ≠ inl e.
Proof.
  destruct (convert_returns m line) as [r Hr]. rewrite Hr. discriminate.
Qed.

(** X6: the engine returns [None] instead of a pair exactly when [find] is
    mapped and the first [-name] of its arguments is the last argument. *)
Theorem convert_None_iff m line :
  convert_unix_to_powershell m line = inr None
  ↔ is_Some (m !! "find")
    ∧ ∃ pre, split (strip line) = "find" :: pre ++ ["-name"]
             ∧ "-name" ∉ pre.
Proof.
  split.
  - intros H.
    destruct (decide (first_or_empty (split (strip line)) = "find"))
      as [Hb|Hb];
      [|destruct (convert_pair_unless_find m line Hb) as [p Hp]; congruence].
    destruct (m !! "find") as [tpl|] eqn:Hm.
    2: { rewrite unmapped_pair in H; [discriminate|by rewrite Hb]. }
    split; [by eexists|].
    destruct (split (strip line)) as [|p0 args] eqn:Hparts; [done|].
    simpl in Hb. subst p0.
    destruct (contains args "-name") eqn:Hin.
    + apply contains_true, list_elem_of_split_l in Hin
        as (pre & post & -> & Hpre).
      rewrite (find_with_name m line tpl pre post) in H by done.
      destruct post; [|discriminate]. by exists pre.
    + destruct (find_without_name m line tpl args) as [p Hp]; [done..|].
      congruence.
  - intros [[tpl Hm] (pre & Hparts & Hpre)].
    by rewrite (find_with_name m line tpl pre []).
Qed.

(** X7: the conversion depends on the line through its tokens only: two
    lines with the same tokens, however the white space between and around
    them differs, are converted alike. *)
Theorem conversion_depends_on_tokens m line1 line2 :
  split line1 = split line2 →
  convert_unix_to_powershell m line1 = convert_unix_to_powershell m line2.
Proof.
  intros Htok. unfold convert_unix_to_powershell. cbv zeta.
  by rewrite !split_strip, Htok.
Qed.

Lemma conversion_depends_on_tokens_witness :
  split "  ls    -la " = split "ls -la"
  ∧ convert_unix_to_powershell default_mappings "  ls    -la "
    = convert_unix_to_powershell default_mappings "ls -la".
Proof.
  split; [reflexivity|].
  exact (conversion_depends_on_tokens default_mappings "  ls    -la "
           "ls -la" eq_refl).
Defined.

(** X8: the base command and the arguments are tokens, never empty and
    free of white space, and the base command is the empty string exactly
    when the line is blank. *)
Theorem tokens_are_clean line :
  Forall token (split (strip line))
  ∧ (first_or_empty (split (strip line)) = "" ↔ blank line).
Proof.
  split; [apply split_tokens|]. rewrite split_strip. split.
  - intros Hb. apply split_nil_blank.
    pose proof (split_tokens line) as Htok.
    destruct (split line) as [|p0 rest]; [done|].
    inversion Htok as [|?? [Hne _] _]; subst. simpl in Hb. done.
  - intros Hb. by rewrite split_blank.
Qed.

(** X9: joining the arguments with one space, as the quoted-target and the
    default rule do, loses nothing but the white-space runs between them:
    the joined text splits back into the same arguments. *)
Theorem joined_args_split_back line base args :
  split (strip line) = base :: args →
  split (join " " args) = args.
Proof.
  intros Hparts. apply split_join.
  pose proof (split_tokens (strip line)) as Htok.
  rewrite Hparts in Htok. by inversion Htok.
Qed.

Lemma joined_args_split_back_witness :
  split (strip "cp  a.txt   b.txt ") = ["cp"; "a.txt"; "b.txt"]
  ∧ split (join " " ["a.txt"; "b.txt"]) = ["a.txt"; "b.txt"].
Proof.
  split; [reflexivity|].
  exact (joined_args_split_back "cp  a.txt   b.txt " "cp"
           ["a.txt"; "b.txt"] eq_refl).
Defined.

(** X10: on a blank line the engine does not fail: the base command is the
    empty string and there are no arguments, so the result is the
    placeholder for [''], or the template of the empty key if the table has
    one. *)
Theorem engine_on_blank_line m line :
  blank line →
  convert_unix_to_powershell m line
  = inr (Some
      match m !! "" with
      | Some tpl => (tpl, "PowerShell equivalent of ")
      | None =>
          ("# No direct mapping found for ''",
           "Command '' doesn't have a direct PowerShell equivalent in our database")
      end).
Proof.
  intros Hb%strip_empty_iff. unfold convert_unix_to_powershell. cbv zeta.
  rewrite Hb. cbn [split length first_or_empty].
  by destruct (m !! "").
Qed.

Lemma engine_on_blank_line_witness :
  blank "  "
  ∧ convert_unix_to_powershell default_mappings "  "
    = inr (Some ("# No direct mapping found for ''",
                 "Command '' doesn't have a direct PowerShell equivalent in our database")).
Proof.
  split; [repeat constructor|].
  exact (engine_on_blank_line default_mappings "  "
           ltac:(repeat constructor)).
Defined.

End Engine.

(** ** The endpoints together *)

Section Endpoints.

Implicit Types (m : gmap string string) (line base tpl : string).
Implicit Types (args : list string).

(** X11: the three outcomes of the conversion endpoint. A blank command is
    answered with the error 400. Any other command is answered with the
    error 500 exactly when the engine returns [None], and otherwise with a
    response that repeats the command as it was sent, carries the engine's
    PowerShell command and the status [success], and holds the explanation
    only if it was asked for. *)
Theorem convert_command_outcomes m (request : UnixCommand) :
  (blank (command request)
   ∧ convert_command m request
     = inl {| status_code := 400; detail := "Command cannot be empty" |})
  ∨ (¬ blank (command request)
     ∧ convert_unix_to_powershell m (command request) = inr None
     ∧ convert_command m request
       = inl {| status_code := 500;
                detail :=
                  "Error converting command: cannot unpack non-iterable NoneType object" |})
  ∨ (¬ blank (command request)
     ∧ ∃ ps expl,
         convert_unix_to_powershell m (command request)
         = inr (Some (ps, expl))
         ∧ convert_command m request
           = inr {| unix_command := command request;
                    powershell_command := ps;
                    explanation :=
                      if truthy (include_explanation request)
                      then Some expl else None;
                    status := "success" |}).
Proof.
  unfold convert_command. case_bool_decide as Hs.
  - left. split; [by apply strip_empty_iff|done].
  - right. rewrite strip_empty_iff in Hs.
    destruct (convert_returns m (command request)) as [[[ps expl]|] Hr];
      rewrite Hr; cbn.
    + right. split; [done|]. exists ps, expl. split; [done|].
      by destruct (truthy _).
    + left. done.
Qed.

(** X12: the explanation tells the soft miss apart for every table, even
    one whose templates look like the placeholder: when the engine returns
    a pair, the explanation begins with [Command '] if and only if the base
    command is not a key of the table. *)
Theorem explanation_identifies_soft_miss m line ps expl :
  convert_unix_to_powershell m line = inr (Some (ps, expl)) →
  startswith expl "Command '" = true
  ↔ m !! first_or_empty (split (strip line)) = None.
Proof.
  unfold convert_unix_to_powershell. cbv zeta.
  set (base := first_or_empty (split (strip line))).
  set (args := if 1 <? length (split (strip line))
               then drop 1 (split (strip line)) else []).
  clearbody base args.
  destruct (m !! base) as [tpl|] eqn:Hbase.
  - intros H.
    enough (startswith expl "Command '" = false) as ->; [done|].
    unfold return_pair, return_None, mbind, mret, result_bind, result_ret
      in H.
    repeat match type of H with
           | match ?x with _ => _ end = _ => destruct x
           end;
      try discriminate H; injection H as <- <-; reflexivity.
  - intros [= <- <-]. done.
Qed.

Lemma explanation_identifies_soft_miss_witness :
  convert_unix_to_powershell default_mappings "zork -x"
  = inr (Some ("# No direct mapping found for 'zork'",
               "Command 'zork' doesn't have a direct PowerShell equivalent in our database"))
  ∧ (startswith
       "Command 'zork' doesn't have a direct PowerShell equivalent in our database"
       "Command '" = true
     ↔ default_mappings !! first_or_empty (split (strip "zork -x")) = None).
Proof.
  split; [reflexivity|].
  exact (explanation_identifies_soft_miss default_mappings "zork -x"
           "# No direct mapping found for 'zork'"
           "Command 'zork' doesn't have a direct PowerShell equivalent in our database"
           eq_refl).
Defined.

(** X13: the rules of [head] and [tail] never use the template: two tables
    that both map the command convert a [head] or [tail] line alike,
    whatever templates they hold for it. *)
Theorem head_tail_ignore_template m1 m2 line base args :
  base ∈ ["head"; "tail"] →
  is_Some (m1 !! base) → is_Some (m2 !! base) →
  split (strip line) = base :: args →
  convert_unix_to_powershell m1 line = convert_unix_to_powershell m2 line.
Proof.
  intros Hbase [tpl1 H1] [tpl2 H2] Hparts.
  unfold convert_unix_to_powershell; cbv zeta.
  rewrite Hparts, args_of_cons; cbn [first_or_empty]. rewrite H1, H2.
  rewrite !elem_of_cons, elem_of_nil in Hbase.
  destruct Hbase as [->|[->|[]]];
    rewrite !bool_decide_eq_false_2 by done;
    by rewrite bool_decide_eq_true_2 by done.
Qed.

Lemma head_tail_ignore_template_witness :
  "head" ∈ ["head"; "tail"]
  ∧ is_Some (default_mappings !! "head")
  ∧ is_Some ((<["head" := "Get-Content -TotalCount"]> default_mappings)
               !! "head")
  ∧ split (strip "head -3 a.txt") = ["head"; "-3"; "a.txt"]
  ∧ convert_unix_to_powershell default_mappings "head -3 a.txt"
    = convert_unix_to_powershell
        (<["head" := "Get-Content -TotalCount"]> default_mappings)
        "head -3 a.txt".
Proof.
  assert (is_Some (default_mappings !! "head")) as H1 by (by eexists).
  assert (is_Some ((<["head" := "Get-Content -TotalCount"]> default_mappings)
                     !! "head")) as H2.
  { rewrite lookup_insert_eq. by eexists. }
  split; [apply list_elem_of_here|]. split; [exact H1|].
  split; [exact H2|]. split; [reflexivity|].
  exact (head_tail_ignore_template default_mappings
           (<["head" := "Get-Content -TotalCount"]> default_mappings)
           "head -3 a.txt" "head" ["-3"; "a.txt"]
           (list_elem_of_here _ _) H1 H2 eq_refl).
Defined.

(** X14: the lookup endpoint and the conversion agree on a bare command
    other than [head] and [tail]: when the lookup finds a template, the
    conversion of the command alone is that template; when the lookup
    answers 404, the conversion is the placeholder naming the command. *)
Theorem bare_command_matches_lookup m line base :
  split (strip line) = [base] →
  base ≠ "head" → base ≠ "tail" →
  match get_specific_mapping m base with
  | inr found =>
      found_unix_command found = base
      ∧ found_status found = "found"
      ∧ ∃ expl,
          convert_unix_to_powershell m line
          = inr (Some (found_powershell_command found, expl))
  | inl err =>
      status_code err = 404
      ∧ ∃ expl,
          convert_unix_to_powershell m line
          = inr (Some ("# No direct mapping found for '" +:+ base +:+ "'",
                       expl))
  end.
Proof.
  intros Hparts Hhead Htail. unfold get_specific_mapping.
  tokenized Hparts. destruct (m !! base) as [tpl|];
    [|split; [done|by eexists]].
  split; [done|]. split; [done|]. cbn [found_powershell_command].
  rewrite (bool_decide_eq_false_2 (base = "head")) by done.
  rewrite (bool_decide_eq_false_2 (base = "tail")) by done.
  repeat case_bool_decide; try done; try by eexists.
  destruct (contains _ base); by eexists.
Qed.

Lemma bare_command_matches_lookup_witness :
  split (strip " pwd ") = ["pwd"]
  ∧ "pwd" ≠ "head" ∧ "pwd" ≠ "tail"
  ∧ get_specific_mapping default_mappings "pwd"
    = inr {| found_unix_command := "pwd";
             found_powershell_command := "Get-Location";
             found_status := "found" |}
  ∧ ∃ expl,
      convert_unix_to_powershell default_mappings " pwd "
      = inr (Some ("Get-Location", expl)).
Proof.
  split; [reflexivity|]. split; [discriminate|]. split; [discriminate|].
  split; [reflexivity|].
  exact (proj2 (proj2
           (bare_command_matches_lookup default_mappings " pwd " "pwd"
              eq_refl ltac:(discriminate) ltac:(discriminate)))).
Defined.

(** X15: the listing endpoint returns the table itself, and its
    [total_commands] is the number of distinct command names that the
    lookup endpoint finds. *)
Theorem total_commands_counts_lookups m :
  mappings (get_command_mappings m) = m
  ∧ ∃ names : list string,
      NoDup names
      ∧ length names = total_commands (get_command_mappings m)
      ∧ ∀ name, name ∈ names
                ↔ ∃ found, get_specific_mapping m name = inr found.
Proof.
  split; [done|]. exists (elements (dom m)). split; [apply NoDup_elements|].
  split.
  - cbn. rewrite <- size_dom. done.
  - intros name. rewrite elem_of_elements, elem_of_dom.
    unfold get_specific_mapping. split.
    + intros [tpl ->]. by eexists.
    + destruct (m !! name); [by eexists|]. by intros [found Hf].
Qed.

End Endpoints.

(** ** The table as seen by the engine *)

Section Locality.

Implicit Types (m : gmap string string) (line : string).

(** X16: the engine reads the table at the base command only: two tables
    that agree on the base command of a line convert the line alike, so
    adding, changing or removing the entries of other commands cannot
    change the conversion. *)
Theorem conversion_reads_one_entry m1 m2 line :
  m1 !! first_or_empty (split (strip line))
  = m2 !! first_or_empty (split (strip line)) →
  convert_unix_to_powershell m1 line = convert_unix_to_powershell m2 line.
Proof.
  intros Hbase. unfold convert_unix_to_powershell. cbv zeta.
  by rewrite Hbase.
Qed.

Lemma conversion_reads_one_entry_witness :
  default_mappings !! first_or_empty (split (strip "rm -rf build"))
  = delete "ls" default_mappings
      !! first_or_empty (split (strip "rm -rf build"))
  ∧ convert_unix_to_powershell default_mappings "rm -rf build"
    = convert_unix_to_powershell (delete "ls" default_mappings)
        "rm -rf build".
Proof.
  assert (default_mappings !! first_or_empty (split (strip "rm -rf build"))
          = delete "ls" default_mappings
              !! first_or_empty (split (strip "rm -rf build"))) as Hrm.
  { vm_compute. reflexivity. }
  split; [exact Hrm|].
  exact (conversion_reads_one_entry default_mappings
           (delete "ls" default_mappings) "rm -rf build" Hrm).
Defined.

Lemma convert_never_raises_witness :
  convert_unix_to_powershell default_mappings "find . -name"
  ≠ inl (Exc IndexError "list index out of range").
Proof.
  exact (convert_never_raises default_mappings "find . -name"
           (Exc IndexError "list index out of range")).
Defined.

Lemma convert_None_iff_witness :
  is_Some (default_mappings !! "find")
  ∧ split (strip "find . -name") = "find" :: (["."] ++ ["-name"])
  ∧ ("-name" ∉ ["."])
  ∧ convert_unix_to_powershell default_mappings "find . -name" = inr None.
Proof.
  assert (is_Some (default_mappings !! "find")) as Hm by (by eexists).
  assert ("-name" ∉ ["."]) as Hpre.
  { apply (bool_decide_unpack _). vm_compute. exact I. }
  split; [exact Hm|]. split; [reflexivity|]. split; [exact Hpre|].
  apply (proj2 (convert_None_iff default_mappings "find . -name")).
  split; [exact Hm|]. exists ["."]. split; [reflexivity|exact Hpre].
Defined.

End Locality.
